(** * Berkeley housing analysis: address normalisation and lookup geocoding

    A shallow embedding of [modules/address_normalizer.py] and
    [modules/geocoder.py], followed by the properties established for them.

    Conventions of the embedding.
    - A Python [str] is a [list ascii]; the development covers ASCII text.
      Characters above 127 are carried along unchanged: they are neither
      whitespace, digits nor letters here.
    - A Python [float] is a binary64 primitive float; a decimal literal
      denotes the nearest binary64 value, as it does in Python.
    - Code that can raise runs in [PyResult]; code that touches the lookup
      file or prints runs in [IO], a state-and-exception monad over [World].
    - The regular expressions of the source are written out as the matchers
      their patterns denote. *)

From Stdlib Require Import Ascii String List ZArith Lia Floats.
From stdpp Require Import base list strings gmap.

Set Warnings "-inexact-float".
Open Scope string_scope.
Open Scope list_scope.

(** ** Python values *)

Definition pystr := list ascii.

Definition lit (s : string) : list ascii := list_ascii_of_string s.
Coercion lit : string >-> list.

Inductive PyExn := IndexError | KeyError | FileNotFoundError.

Inductive PyResult (A : Type) : Type :=
| Ok (a : A)
| Raise (e : PyExn).
Arguments Ok {A} a.
Arguments Raise {A} e.

#[global] Instance PyResult_ret : MRet PyResult := fun _ a => Ok a.
#[global] Instance PyResult_bind : MBind PyResult := fun _ _ f m =>
  match m with
  | Ok a => f a
  | Raise e => Raise e
  end.

(** [l[i]] with Python's negative indices. *)
Definition py_index {A} (l : list A) (i : Z) : PyResult A :=
  let n := Z.of_nat (length l) in
  let j := if (i <? 0)%Z then (i + n)%Z else i in
  if ((0 <=? j) && (j <? n))%Z
  then match l !! Z.to_nat j with
       | Some x => Ok x
       | None => Raise IndexError
       end
  else Raise IndexError.

(** [d[k]] on a dict. *)
Definition py_getitem {V} (d : gmap pystr V) (k : pystr) : PyResult V :=
  match d !! k with
  | Some v => Ok v
  | None => Raise KeyError
  end.

(** [d.get(k, default)]. *)
Definition py_get {V} (d : gmap pystr V) (k : pystr) (default : V) : V :=
  match d !! k with
  | Some v => v
  | None => default
  end.

(** [k in d]. *)
Definition py_in {V} (d : gmap pystr V) (k : pystr) : bool :=
  bool_decide (is_Some (d !! k)).

(** Truth value of a [str] or a [list]: non-empty. *)
Definition truthy {A} (l : list A) : bool :=
  match l with
  | [] => false
  | _ :: _ => true
  end.

(** ** Characters and [str] methods *)

Module PyStr.

Definition code (c : ascii) : N := N_of_ascii c.

Definition between (lo hi : N) (c : ascii) : bool :=
  ((lo <=? code c) && (code c <=? hi))%N.

(** [str.isspace] on one character: TAB..CR, FS..US and the space. *)
Definition is_space (c : ascii) : bool := between 9 13 c || between 28 32 c.
Definition is_digit (c : ascii) : bool := between 48 57 c.
Definition is_upper (c : ascii) : bool := between 65 90 c.
Definition is_lower (c : ascii) : bool := between 97 122 c.
Definition is_alpha (c : ascii) : bool := is_upper c || is_lower c.

Definition upper_char (c : ascii) : ascii :=
  if is_lower c then ascii_of_N (code c - 32) else c.
Definition lower_char (c : ascii) : ascii :=
  if is_upper c then ascii_of_N (code c + 32) else c.

Definition upper (s : pystr) : pystr := map upper_char s.
Definition lower (s : pystr) : pystr := map lower_char s.

(** [str.title]: a cased character that follows a cased character is
    lowercased, every other character is uppercased. *)
Fixpoint title_from (previous_is_cased : bool) (s : pystr) : pystr :=
  match s with
  | [] => []
  | c :: s' =>
      (if previous_is_cased then lower_char c else upper_char c)
        :: title_from (is_alpha c) s'
  end.
Definition title (s : pystr) : pystr := title_from false s.

(** [str.isdigit]: non-empty and all digits. *)
Definition isdigit (s : pystr) : bool := truthy s && forallb is_digit s.

Fixpoint lstrip (s : pystr) : pystr :=
  match s with
  | c :: s' => if is_space c then lstrip s' else s
  | [] => []
  end.
Definition rstrip (s : pystr) : pystr := rev (lstrip (rev s)).
Definition strip (s : pystr) : pystr := rstrip (lstrip s).

(** [str.split()] without a separator: the maximal runs of characters that
    are not whitespace, in order; no empty string is produced. *)
Fixpoint split (s : pystr) : list pystr :=
  match s with
  | [] => []
  | c :: s' =>
      if is_space c then split s'
      else match s' with
           | [] => [[c]]
           | c' :: _ =>
               if is_space c' then [c] :: split s'
               else match split s' with
                    | t :: ts => (c :: t) :: ts
                    | [] => [[c]]
                    end
           end
  end.

(** [sep.join(parts)]. *)
Fixpoint join (sep : pystr) (parts : list pystr) : pystr :=
  match parts with
  | [] => []
  | [p] => p
  | p :: ps => p ++ sep ++ join sep ps
  end.

(** Case-insensitive literal prefix, as a regular expression matches a
    literal under [re.IGNORECASE]; the result is the rest of the subject. *)
Fixpoint eat_nocase (literal s : pystr) : option pystr :=
  match literal, s with
  | [], _ => Some s
  | l :: literal', c :: s' =>
      if bool_decide (upper_char c = upper_char l) then eat_nocase literal' s'
      else None
  | _ :: _, [] => None
  end.

(** Case-sensitive literal prefix. *)
Fixpoint eat (literal s : pystr) : option pystr :=
  match literal, s with
  | [], _ => Some s
  | l :: literal', c :: s' =>
      if bool_decide (c = l) then eat literal' s' else None
  | _ :: _, [] => None
  end.

(** Greedy run of characters of one class: the run and the rest. *)
Fixpoint span (p : ascii -> bool) (s : pystr) : pystr * pystr :=
  match s with
  | c :: s' =>
      if p c then let '(run, rest) := span p s' in (c :: run, rest)
      else ([], s)
  | [] => ([], [])
  end.

(** [$] without [re.MULTILINE]: the end of the subject, or just before a
    line feed that ends it. *)
Definition at_dollar (s : pystr) : bool :=
  match s with
  | [] => true
  | [c] => bool_decide (c = "010"%char)
  | _ => false
  end.

End PyStr.

(** ** modules/address_normalizer.py *)

(** A dict literal: later bindings of a key replace earlier ones. *)
Definition dict_of {V} (items : list (pystr * V)) : gmap pystr V :=
  foldl (fun d kv => <[kv.1 := kv.2]> d) ∅ items.

Module AddressNormalizer.
Import PyStr.

Definition NUMBERED_STREETS : gmap pystr pystr :=
  dict_of
    [ (lit "1ST", lit "FIRST"); (lit "FIRST", lit "1ST");
      (lit "2ND", lit "SECOND"); (lit "SECOND", lit "2ND");
      (lit "3RD", lit "THIRD"); (lit "THIRD", lit "3RD");
      (lit "4TH", lit "FOURTH"); (lit "FOURTH", lit "4TH");
      (lit "5TH", lit "FIFTH"); (lit "FIFTH", lit "5TH");
      (lit "6TH", lit "SIXTH"); (lit "SIXTH", lit "6TH");
      (lit "7TH", lit "SEVENTH"); (lit "SEVENTH", lit "7TH");
      (lit "8TH", lit "EIGHTH"); (lit "EIGHTH", lit "8TH");
      (lit "9TH", lit "NINTH"); (lit "NINTH", lit "9TH");
      (lit "10TH", lit "TENTH"); (lit "TENTH", lit "10TH");
      (lit "11TH", lit "ELEVENTH"); (lit "ELEVENTH", lit "11TH");
      (lit "12TH", lit "TWELFTH"); (lit "TWELFTH", lit "12TH") ].

(** The items of [STREET_TYPES], in the order the literal lists them. *)
Definition STREET_TYPES_items : list (pystr * list pystr) :=
  [ (lit "ST", [lit "ST"; lit "STREET"; lit "STR"]);
    (lit "AV", [lit "AV"; lit "AVE"; lit "AVENUE"]);
    (lit "WY", [lit "WY"; lit "WAY"]);
    (lit "BL", [lit "BL"; lit "BLVD"; lit "BOULEVARD"]);
    (lit "RD", [lit "RD"; lit "ROAD"]);
    (lit "DR", [lit "DR"; lit "DRIVE"]);
    (lit "LN", [lit "LN"; lit "LANE"]);
    (lit "PL", [lit "PL"; lit "PLACE"]);
    (lit "CT", [lit "CT"; lit "COURT"; lit "CRT"]);
    (lit "CR", [lit "CR"; lit "CIR"; lit "CIRCLE"]);
    (lit "TER", [lit "TER"; lit "TERR"; lit "TERRACE"]);
    (lit "PK", [lit "PK"; lit "PARK"; lit "PKWY"; lit "PARKWAY"]);
    (lit "SQ", [lit "SQ"; lit "SQUARE"]);
    (lit "HWY", [lit "HWY"; lit "HIGHWAY"]) ].

Definition STREET_TYPES : gmap pystr (list pystr) := dict_of STREET_TYPES_items.

(** The module-level loop that fills the reverse index. *)
Definition TYPE_TO_CANONICAL : gmap pystr pystr :=
  foldl
    (fun d item =>
       let '(canonical, variations) := item in
       foldl (fun d var => <[var := canonical]> d) d variations)
    ∅ STREET_TYPES_items.

Record ParsedAddress := mkParsed {
  street_number : pystr;
  street_name : pystr;
  street_type : pystr;
  unit : pystr;
  original : pystr
}.

Definition set_street_number (v : pystr) (r : ParsedAddress) : ParsedAddress :=
  mkParsed v (street_name r) (street_type r) (unit r) (original r).
Definition set_street_name (v : pystr) (r : ParsedAddress) : ParsedAddress :=
  mkParsed (street_number r) v (street_type r) (unit r) (original r).
Definition set_street_type (v : pystr) (r : ParsedAddress) : ParsedAddress :=
  mkParsed (street_number r) (street_name r) v (unit r) (original r).
Definition set_unit (v : pystr) (r : ParsedAddress) : ParsedAddress :=
  mkParsed (street_number r) (street_name r) (street_type r) v (original r).

(** *** The unit pattern
    [(#|APT\.?|UNIT|STE\.?|SUITE)\s*([A-Z0-9-]+)\s*$] under [re.IGNORECASE]. *)

(** The alternatives of group 1, in order, with whether [\.?] follows. *)
Definition unit_markers : list (pystr * bool) :=
  [ (lit "#", false); (lit "APT", true); (lit "UNIT", false);
    (lit "STE", true); (lit "SUITE", false) ].

(** [[A-Z0-9-]] under [re.IGNORECASE]. *)
Definition is_unit_char (c : ascii) : bool :=
  is_alpha c || is_digit c || bool_decide (c = "-"%char).

(** [\s*([A-Z0-9-]+)\s*$]: group 2 when it matches.  The three classes are
    disjoint, so the greedy reading is the only one. *)
Definition unit_tail (s : pystr) : option pystr :=
  let '(tok, rest) := span is_unit_char (lstrip s) in
  if truthy tok && at_dollar (lstrip rest) then Some tok else None.

(** One alternative of group 1 followed by the rest of the pattern; the
    optional period is tried first, then skipped. *)
Definition unit_alternative (marker : pystr * bool) (s : pystr) : option pystr :=
  match eat_nocase marker.1 s with
  | None => None
  | Some r =>
      if marker.2
      then match eat (lit ".") r with
           | Some r' =>
               match unit_tail r' with
               | Some g => Some g
               | None => unit_tail r
               end
           | None => unit_tail r
           end
      else unit_tail r
  end.

(** The whole pattern anchored at the head of [s]: group 2. *)
Definition unit_match_at (s : pystr) : option pystr :=
  foldr
    (fun marker otherwise =>
       match unit_alternative marker s with
       | Some g => Some g
       | None => otherwise
       end)
    None unit_markers.

(** A match object: [start()] and [group(2)]. *)
Record UnitMatch := mkUnitMatch { um_start : nat; um_group2 : pystr }.

(** [re.search]: the leftmost position at which the pattern matches. *)
Fixpoint unit_search_from (i : nat) (s : pystr) : option UnitMatch :=
  match unit_match_at s with
  | Some g => Some (mkUnitMatch i g)
  | None =>
      match s with
      | [] => None
      | _ :: s' => unit_search_from (S i) s'
      end
  end.
Definition unit_search (s : pystr) : option UnitMatch := unit_search_from 0 s.

(** [re.match(r'^\d+[A-Z]?$', s, re.IGNORECASE)] as a truth value.  The
    optional letter is tried first, then skipped. *)
Definition match_number (s : pystr) : bool :=
  let '(digits, rest) := span is_digit s in
  truthy digits &&
  match rest with
  | c :: rest' => (is_alpha c && at_dollar rest') || at_dollar rest
  | [] => at_dollar rest
  end.

Definition parse_address (address : pystr) : PyResult ParsedAddress :=
  let result := mkParsed [] [] [] [] address in
  if negb (truthy address) then Ok result else
  let addr := strip address in
  let unit_match := unit_search addr in
  let '(result, addr) :=
    match unit_match with
    | Some m => (set_unit (um_group2 m) result, strip (take (um_start m) addr))
    | None => (result, addr)
    end in
  let parts := split addr in
  if negb (truthy parts) then Ok result else
  first ← py_index parts 0;
  let '(result, parts) :=
    if isdigit first || match_number first
    then (set_street_number first result, drop 1 parts)
    else (result, parts) in
  if negb (truthy parts) then Ok result else
  last_part ← py_index parts (-1);
  let last := upper last_part in
  let '(result, parts) :=
    if py_in TYPE_TO_CANONICAL last
    then (set_street_type last_part result, take (length parts - 1) parts)
    else (result, parts) in
  Ok (set_street_name (join (lit " ") parts) result).

Definition standardize_address (address : pystr) (uppercase : bool) : PyResult pystr :=
  parsed ← parse_address address;
  let street_num := street_number parsed in
  let street_name := street_name parsed in
  let street_type := street_type parsed in
  let type_upper := upper street_type in
  let canonical_type := py_get TYPE_TO_CANONICAL type_upper type_upper in
  let parts := [] in
  let parts := if truthy street_num then parts ++ [street_num] else parts in
  let parts :=
    if truthy street_name
    then parts ++ [if uppercase then upper street_name else street_name]
    else parts in
  let parts :=
    if truthy canonical_type
    then parts ++ [if uppercase then canonical_type else street_type]
    else parts in
  Ok (join (lit " ") parts).

(** The formatted string [f"{a} {b} {c}"]. *)
Definition fmt3 (a b c : pystr) : pystr := a ++ lit " " ++ b ++ lit " " ++ c.

Definition normalize_address (address : pystr) : PyResult pystr :=
  if negb (truthy address) then Ok [] else
  parsed ← parse_address address;
  let street_num := street_number parsed in
  let street_name := upper (street_name parsed) in
  let street_type := upper (street_type parsed) in
  let canonical_type := py_get TYPE_TO_CANONICAL street_type street_type in
  Ok (strip (fmt3 street_num street_name canonical_type)).

(** A Python [set] of strings is a [gset]; [list(variations)] lists its
    elements once each, in an order the language leaves open. *)
Definition get_street_name_variations (street_name : pystr) : PyResult (list pystr) :=
  let variations : gset pystr := ∅ in
  let name_upper := upper street_name in
  let variations := variations ∪ {[ name_upper ]} in
  let variations := variations ∪ {[ lower street_name ]} in
  let variations := variations ∪ {[ title street_name ]} in
  variations ←
    (if py_in NUMBERED_STREETS name_upper
     then
       alternate ← py_getitem NUMBERED_STREETS name_upper;
       let variations := variations ∪ {[ alternate ]} in
       let variations := variations ∪ {[ lower alternate ]} in
       let variations := variations ∪ {[ title alternate ]} in
       Ok variations
     else Ok variations);
  Ok (elements variations).

Definition get_street_type_variations (street_type : pystr) : PyResult (list pystr) :=
  let variations : gset pystr := ∅ in
  let type_upper := upper street_type in
  let canonical := py_get TYPE_TO_CANONICAL type_upper type_upper in
  variations ←
    (if py_in STREET_TYPES canonical
     then
       spellings ← py_getitem STREET_TYPES canonical;
       Ok (foldl
             (fun variations var =>
                variations ∪ {[ var ]} ∪ {[ lower var ]} ∪ {[ title var ]})
             variations spellings)
     else
       let variations := variations ∪ {[ type_upper ]} in
       let variations := variations ∪ {[ lower street_type ]} in
       let variations := variations ∪ {[ title street_type ]} in
       Ok variations);
  Ok (elements variations).

Definition generate_address_variations
    (street_number street_name street_type : pystr) : PyResult (list pystr) :=
  name_variations ← get_street_name_variations street_name;
  type_variations ← get_street_type_variations street_type;
  let all_variations :=
    foldl
      (fun all name =>
         foldl (fun all stype => all ++ [fmt3 street_number name stype])
               all type_variations)
      [] name_variations in
  Ok (elements (list_to_set all_variations : gset pystr)).

Definition addresses_match (addr1 addr2 : pystr) : PyResult bool :=
  n1 ← normalize_address addr1;
  n2 ← normalize_address addr2;
  Ok (bool_decide (n1 = n2)).

End AddressNormalizer.

(** ** modules/geocoder.py *)

Module Geocoder.
Import PyStr.

Record Bounds := mkBounds {
  lat_min : float;
  lat_max : float;
  lon_min : float;
  lon_max : float
}.

Definition BERKELEY_BOUNDS : Bounds :=
  mkBounds 37.84%float 37.91%float (-122.32)%float (-122.23)%float.

(** The dict [word_to_num] that [normalize_street_name] builds on entry. *)
Definition word_to_num : gmap pystr pystr :=
  dict_of
    [ (lit "FIRST", lit "1ST"); (lit "SECOND", lit "2ND"); (lit "THIRD", lit "3RD");
      (lit "FOURTH", lit "4TH"); (lit "FIFTH", lit "5TH"); (lit "SIXTH", lit "6TH");
      (lit "SEVENTH", lit "7TH"); (lit "EIGHTH", lit "8TH"); (lit "NINTH", lit "9TH");
      (lit "TENTH", lit "10TH"); (lit "ELEVENTH", lit "11TH");
      (lit "TWELFTH", lit "12TH") ].

Definition normalize_street_name (name : pystr) : PyResult pystr :=
  let name_upper := strip (upper name) in
  if py_in word_to_num name_upper
  then py_getitem word_to_num name_upper
  else Ok name_upper.

(** [re.match(r'^(\d+)(ST|ND|RD|TH)$', s)]: groups 1 and 2.  A shorter run
    of digits cannot be followed by one of the suffixes, so the greedy run
    is the only candidate. *)
Definition ordinal_match (s : pystr) : option (pystr * pystr) :=
  let '(num, rest) := span is_digit s in
  if truthy num
  then
    foldr
      (fun suffix otherwise =>
         match eat suffix rest with
         | Some r => if at_dollar r then Some (num, suffix) else otherwise
         | None => otherwise
         end)
      None [lit "ST"; lit "ND"; lit "RD"; lit "TH"]
  else None.

Definition type_map : gmap pystr pystr :=
  dict_of
    [ (lit "ST", lit "St"); (lit "AV", lit "Av"); (lit "AVE", lit "Av");
      (lit "AVENUE", lit "Av");
      (lit "WY", lit "Wy"); (lit "WAY", lit "Wy");
      (lit "BL", lit "Bl"); (lit "BLVD", lit "Bl"); (lit "BOULEVARD", lit "Bl");
      (lit "RD", lit "Rd"); (lit "ROAD", lit "Rd");
      (lit "DR", lit "Dr"); (lit "DRIVE", lit "Dr");
      (lit "PL", lit "Pl"); (lit "PLACE", lit "Pl");
      (lit "CT", lit "Ct"); (lit "COURT", lit "Ct");
      (lit "LN", lit "Ln"); (lit "LANE", lit "Ln");
      (lit "SQ", lit "Sq"); (lit "SQUARE", lit "Sq");
      (lit "TE", lit "Te"); (lit "TER", lit "Te"); (lit "TERRACE", lit "Te");
      (lit "CI", lit "Ci"); (lit "CIR", lit "Ci"); (lit "CIRCLE", lit "Ci") ].

(** Returns [None] or the string in the lookup table's format. *)
Definition normalize_address_for_lookup (address : pystr) : PyResult (option pystr) :=
  let parts := split (strip address) in
  if (length parts <? 3)%nat then Ok None else
  street_num ← py_index parts 0;
  street_name ← py_index parts 1;
  street_type ← py_index parts 2;
  normalized_name ← normalize_street_name street_name;
  let normalized_name :=
    if bool_decide (is_Some (ordinal_match normalized_name))
    then match ordinal_match normalized_name with
         | Some (num, suffix) => num ++ lower suffix
         | None => normalized_name
         end
    else normalized_name in
  let street_type_upper := upper street_type in
  let normalized_type := py_get type_map street_type_upper (title street_type) in
  let normalized := AddressNormalizer.fmt3 street_num normalized_name normalized_type in
  Ok (Some normalized).

(** *** The lookup file and the console *)

(** One row of the lookup table; a missing [APN] cell is [None]. *)
Record LookupRecord := mkRow {
  original_address : pystr;
  latitude : float;
  longitude : float;
  APN : option pystr
}.

Inductive IOEvent :=
| ReadCsv (path : string)
| WriteCsv (path : string)
| Printed (text : pystr).

(** The files that hold a table, by path, and what has been done so far. *)
Record World := mkWorld {
  files : gmap string (list LookupRecord);
  log : list IOEvent
}.

Definition IO (A : Type) : Type := World -> PyResult A * World.

Definition io_ret {A} (a : A) : IO A := fun w => (Ok a, w).
Definition io_bind {A B} (m : IO A) (f : A -> IO B) : IO B := fun w =>
  match m w with
  | (Ok a, w') => f a w'
  | (Raise e, w') => (Raise e, w')
  end.
Definition io_lift {A} (r : PyResult A) : IO A := fun w => (r, w).

Notation "x <~ m ;; k" := (io_bind m (fun x => k))
  (at level 100, m at next level, right associativity).
Notation "m ;;; k" := (io_bind m (fun _ => k))
  (at level 100, right associativity).

Definition emit (e : IOEvent) (w : World) : World :=
  mkWorld (files w) (log w ++ [e]).

(** [pd.read_csv(path)]. *)
Definition read_csv (path : string) : IO (list LookupRecord) := fun w =>
  let w := emit (ReadCsv path) w in
  match files w !! path with
  | Some table => (Ok table, w)
  | None => (Raise FileNotFoundError, w)
  end.

(** [df.to_csv(path, index=False)]. *)
Definition to_csv (table : list LookupRecord) (path : string) : IO () := fun w =>
  (Ok (), mkWorld (<[path := table]> (files w)) (log w ++ [WriteCsv path])).

Definition print (text : pystr) : IO () := fun w => (Ok (), emit (Printed text) w).

Record GeocodeResult := mkResult {
  res_latitude : float;
  res_longitude : float;
  res_apn : option pystr;
  res_original_address : pystr;
  res_normalized_input : pystr
}.

Definition default_lookup_file : string :=
  "/Users/johngage/berkeley-data/alameda_lookup_complete.csv".

Definition geocode_from_lookup (address : pystr) (lookup_file : string)
  : IO (option GeocodeResult) :=
  normalized <~ io_lift (normalize_address_for_lookup address) ;;
  match normalized with
  | None => io_ret None
  | Some normalized =>
      if negb (truthy normalized) then io_ret None else
      df_lookup <~ read_csv lookup_file ;;
      let match_ :=
        filter (fun row => original_address row = normalized) df_lookup in
      if (0 <? length match_)%nat
      then
        row <~ io_lift (py_index match_ 0) ;;
        io_ret (Some (mkResult (latitude row) (longitude row) (APN row)
                               (original_address row) normalized))
      else io_ret None
  end.

Definition validate_coordinates (latitude longitude : float) (city : pystr) : bool :=
  if bool_decide (city = lit "Berkeley")
  then ((lat_min BERKELEY_BOUNDS <=? latitude) && (latitude <=? lat_max BERKELEY_BOUNDS)
        && ((lon_min BERKELEY_BOUNDS <=? longitude)
            && (longitude <=? lon_max BERKELEY_BOUNDS)))%float
  else false.

Definition add_manual_geocode (address : pystr) (latitude longitude : float)
    (apn : option pystr) (lookup_file : string) : IO bool :=
  if negb (validate_coordinates latitude longitude (lit "Berkeley"))
  then
    print (lit "WARNING: Coordinates outside Berkeley bounds") ;;;
    io_ret false
  else
    df_lookup <~ read_csv lookup_file ;;
    normalized <~ io_lift (normalize_address_for_lookup address) ;;
    let new_entry :=
      mkRow (match normalized with
             | Some n => if truthy n then n else address
             | None => address
             end)
            latitude longitude
            (match apn with
             | Some a => if truthy a then Some a else None
             | None => None
             end) in
    let df_lookup := df_lookup ++ [new_entry] in
    to_csv df_lookup lookup_file ;;;
    print (lit "Added " ++ address ++ lit " to lookup table") ;;;
    io_ret true.

Definition geocode_address (address : pystr) (lookup_file : string) :=
  geocode_from_lookup address lookup_file.

Definition validate_berkeley_coords (latitude longitude : float) : bool :=
  validate_coordinates latitude longitude (lit "Berkeley").

Definition manual_geocode_entry (address : pystr) (latitude longitude : float)
    (apn : option pystr) (lookup_file : string) : IO bool :=
  add_manual_geocode address latitude longitude apn lookup_file.

End Geocoder.

(** ** Vocabulary of the statements *)

Import PyStr AddressNormalizer Geocoder.

(** The answer built from the first row that carries the query. *)
Definition first_match (query : pystr) (table : list LookupRecord) : option GeocodeResult :=
  match filter (fun row => original_address row = query) table with
  | row :: _ =>
      Some (mkResult (latitude row) (longitude row) (APN row) (original_address row) query)
  | [] => None
  end.

(** A string of whitespace only, and a token: a non-empty string without
    whitespace. *)
Definition blank (s : pystr) : Prop := Forall (fun c => is_space c = true) s.
Definition token (t : pystr) : Prop :=
  t <> [] /\ Forall (fun c => is_space c = false) t.

(** The string [parse_address] tokenises: the stripped address, cut before
    the unit designator when there is one. *)
Definition remainder (addr : pystr) : pystr :=
  match unit_search addr with
  | Some m => strip (take (um_start m) addr)
  | None => addr
  end.
Definition unit_of (addr : pystr) : pystr :=
  match unit_search addr with
  | Some m => um_group2 m
  | None => []
  end.

(** What [parse_address] does with the tokens: the number in front, then the
    type at the end, the name in between. *)
Definition split_number (parts : list pystr) : pystr * list pystr :=
  match parts with
  | first :: rest =>
      if isdigit first || match_number first then (first, rest) else ([], parts)
  | [] => ([], [])
  end.
Definition split_type (parts : list pystr) : list pystr * pystr :=
  match last parts with
  | Some last_part =>
      if py_in TYPE_TO_CANONICAL (upper last_part)
      then (take (length parts - 1) parts, last_part)
      else (parts, [])
  | None => ([], [])
  end.
Definition components (parts : list pystr) : pystr * list pystr * pystr :=
  let '(number, rest) := split_number parts in
  let '(name_parts, type) := split_type rest in
  (number, name_parts, type).

(** The key [normalize_address] builds from the components. *)
Definition canonical_type (type : pystr) : pystr :=
  py_get TYPE_TO_CANONICAL (upper type) (upper type).
Definition render (c : pystr * list pystr * pystr) : pystr :=
  let '(number, name_parts, type) := c in
  strip (fmt3 number (upper (join (lit " ") name_parts)) (canonical_type type)).

(** A list of at most one string: the string unless it is empty. *)
Definition present (s : pystr) : list pystr := if truthy s then [s] else [].

(** What every entry of the reverse index satisfies: the canonical form is
    in upper case, is its own canonical form, is one token, and does not
    look like a street number. *)
Definition entry_ok (canonical : pystr) : bool :=
  bool_decide (upper canonical = canonical)
  && bool_decide (TYPE_TO_CANONICAL !! canonical = Some canonical)
  && truthy canonical
  && forallb (fun c => negb (is_space c)) canonical
  && negb (isdigit canonical || match_number canonical).

(** * Properties *)

(** ** Indexing *)

Lemma py_index_nat {A} (l : list A) (n : nat) (x : A) :
  l !! n = Some x -> py_index l (Z.of_nat n) = Ok x.
Proof.
  intros Hx. unfold py_index.
  pose proof (lookup_lt_Some _ _ _ Hx) as Hlt.
  destruct (Z.ltb_spec (Z.of_nat n) 0) as [?|_]; [lia|].
  destruct (Z.leb_spec 0 (Z.of_nat n)) as [_|?]; [|lia].
  destruct (Z.ltb_spec (Z.of_nat n) (Z.of_nat (length l))) as [_|?]; [|lia].
  cbn. by rewrite Nat2Z.id, Hx.
Qed.

Lemma py_index_last {A} (l : list A) (x : A) :
  py_index (l ++ [x]) (-1) = Ok x.
Proof.
  unfold py_index. rewrite length_app. cbn [length].
  destruct (Z.ltb_spec (-1) 0) as [_|?]; [|lia].
  destruct (Z.leb_spec 0 (-1 + Z.of_nat (length l + 1))) as [_|?]; [|lia].
  destruct (Z.ltb_spec (-1 + Z.of_nat (length l + 1)) (Z.of_nat (length l + 1))) as [_|?]; [|lia].
  cbn [andb].
  replace (Z.to_nat (-1 + Z.of_nat (length l + 1))) with (length l + 0)%nat by lia.
  by rewrite lookup_app_r, Nat.add_0_r, Nat.sub_diag by lia.
Qed.

(** ** Characters *)

Ltac by_cases_on_char c :=
  destruct c as [[] [] [] [] [] [] [] []]; vm_compute; try reflexivity; try discriminate.

Lemma upper_char_idem (c : ascii) : upper_char (upper_char c) = upper_char c.
Proof. by_cases_on_char c. Qed.

Lemma is_space_upper_char (c : ascii) : is_space (upper_char c) = is_space c.
Proof. by_cases_on_char c. Qed.

Lemma is_digit_upper_char (c : ascii) : is_digit (upper_char c) = is_digit c.
Proof. by_cases_on_char c. Qed.

Lemma is_alpha_upper_char (c : ascii) : is_alpha (upper_char c) = is_alpha c.
Proof. by_cases_on_char c. Qed.

(** ** Stripping *)

Lemma lstrip_blank_app (ws s : pystr) : blank ws -> lstrip (ws ++ s) = lstrip s.
Proof.
  induction 1 as [|c ws Hc _ IH]; [reflexivity|].
  cbn. by rewrite Hc.
Qed.

Lemma lstrip_decomp (s : pystr) : exists ws, blank ws /\ s = ws ++ lstrip s.
Proof.
  induction s as [|c s (ws & Hws & IH)].
  - exists []. split; [constructor|reflexivity].
  - cbn. destruct (is_space c) eqn:Hc.
    + exists (c :: ws). split; [by constructor|]. cbn. by rewrite <- IH.
    + exists []. split; [constructor|reflexivity].
Qed.

Lemma lstrip_head (s : pystr) :
  lstrip s = [] \/ exists c s', lstrip s = c :: s' /\ is_space c = false.
Proof.
  induction s as [|c s IH]; [by left|].
  cbn. destruct (is_space c) eqn:Hc; [exact IH|].
  right. by exists c, s.
Qed.

Lemma lstrip_fixed (c : ascii) (s : pystr) : is_space c = false -> lstrip (c :: s) = c :: s.
Proof. intros Hc. cbn. by rewrite Hc. Qed.

Lemma lstrip_idem (s : pystr) : lstrip (lstrip s) = lstrip s.
Proof.
  destruct (lstrip_head s) as [->|(c & s' & -> & Hc)]; [reflexivity|].
  by apply lstrip_fixed.
Qed.

Lemma blank_rev (ws : pystr) : blank ws -> blank (rev ws).
Proof. apply List.Forall_rev. Qed.

Lemma rstrip_decomp (s : pystr) : exists ws, blank ws /\ s = rstrip s ++ ws.
Proof.
  unfold rstrip. destruct (lstrip_decomp (rev s)) as (ws & Hws & Hrev).
  exists (rev ws). split; [by apply blank_rev|].
  rewrite <- rev_app_distr, <- Hrev. by rewrite rev_involutive.
Qed.

Lemma rstrip_idem (s : pystr) : rstrip (rstrip s) = rstrip s.
Proof. unfold rstrip. by rewrite rev_involutive, lstrip_idem. Qed.

Lemma blank_head_false (c : ascii) (s : pystr) : is_space c = false -> ~ blank (c :: s).
Proof. intros Hc Hb. inversion Hb; congruence. Qed.

Lemma rstrip_keeps_head (c : ascii) (s : pystr) :
  is_space c = false -> exists s', rstrip (c :: s) = c :: s'.
Proof.
  intros Hc. destruct (rstrip_decomp (c :: s)) as (ws & Hws & Heq).
  destruct (rstrip (c :: s)) as [|c' s'] eqn:Hr.
  - cbn in Heq. subst ws. by apply blank_head_false in Hws.
  - cbn in Heq. injection Heq as <- _. by exists s'.
Qed.

Lemma strip_idem (s : pystr) : strip (strip s) = strip s.
Proof.
  unfold strip.
  destruct (lstrip_head s) as [->|(c & s' & -> & Hc)]; [reflexivity|].
  destruct (rstrip_keeps_head c s' Hc) as [s'' Hs''].
  rewrite Hs'', (lstrip_fixed _ _ Hc), <- Hs''. apply rstrip_idem.
Qed.

Lemma strip_decomp (s : pystr) :
  exists ws1 ws2, blank ws1 /\ blank ws2 /\ s = ws1 ++ strip s ++ ws2.
Proof.
  destruct (lstrip_decomp s) as (ws1 & H1 & Hs).
  destruct (rstrip_decomp (lstrip s)) as (ws2 & H2 & Hl).
  exists ws1, ws2. repeat split; try done. unfold strip. by rewrite <- Hl.
Qed.

(** ** Splitting *)

Lemma split_blank (ws : pystr) : blank ws -> split ws = [].
Proof. induction 1 as [|c ws Hc _ IH]; [reflexivity|]. cbn. by rewrite Hc. Qed.

Lemma split_blank_app (ws s : pystr) : blank ws -> split (ws ++ s) = split s.
Proof. induction 1 as [|c ws Hc _ IH]; [reflexivity|]. cbn. by rewrite Hc. Qed.

Lemma split_cons (c : ascii) (s : pystr) :
  split (c :: s)
  = if is_space c then split s
    else match s with
         | [] => [[c]]
         | c' :: _ =>
             if is_space c' then [c] :: split s
             else match split s with
                  | t :: ts => (c :: t) :: ts
                  | [] => [[c]]
                  end
         end.
Proof. reflexivity. Qed.

Lemma split_app_blank (a ws : pystr) : blank ws -> split (a ++ ws) = split a.
Proof.
  intros Hws. induction a as [|c a IH].
  - by apply split_blank.
  - cbn [app]. rewrite !split_cons, IH. destruct (is_space c); [reflexivity|].
    destruct a as [|c' a]; [|reflexivity].
    cbn [app]. destruct Hws as [|w ws Hw Hws]; [reflexivity|].
    by rewrite Hw.
Qed.

Lemma split_lstrip (s : pystr) : split (lstrip s) = split s.
Proof.
  destruct (lstrip_decomp s) as (ws & Hws & Hs).
  rewrite Hs at 2. by rewrite split_blank_app.
Qed.

Lemma split_rstrip (s : pystr) : split (rstrip s) = split s.
Proof.
  destruct (rstrip_decomp s) as (ws & Hws & Hs).
  rewrite Hs at 2. by rewrite split_app_blank.
Qed.

Lemma split_strip (s : pystr) : split (strip s) = split s.
Proof. unfold strip. by rewrite split_rstrip, split_lstrip. Qed.

(** [split] scans: a character that is not whitespace opens a token, which
    runs to the next whitespace. *)
Lemma split_scan (c : ascii) (s : pystr) :
  is_space c = false ->
  split (c :: s)
  = (c :: (span (fun x => negb (is_space x)) s).1)
      :: split (span (fun x => negb (is_space x)) s).2.
Proof.
  revert c. induction s as [|c' s IH]; intros c Hc.
  - cbn. by rewrite Hc.
  - cbn [split]. rewrite Hc. cbn [span].
    destruct (is_space c') eqn:Hc'; cbn [negb].
    + cbn. by rewrite Hc'.
    + specialize (IH c' Hc'). cbn [split] in IH. rewrite Hc' in IH.
      rewrite IH.
      destruct (span (fun x => negb (is_space x)) s) as [run rest]. reflexivity.
Qed.

Lemma span_token_tail (t b : pystr) (w : ascii) :
  Forall (fun c => is_space c = false) t -> is_space w = true ->
  span (fun x => negb (is_space x)) (t ++ w :: b) = (t, w :: b).
Proof.
  intros Ht Hw. induction Ht as [|c t Hc _ IH]; cbn.
  - by rewrite Hw.
  - by rewrite Hc, IH.
Qed.

Lemma span_token_end (t : pystr) :
  Forall (fun c => is_space c = false) t ->
  span (fun x => negb (is_space x)) t = (t, []).
Proof.
  induction 1 as [|c t Hc _ IH]; cbn; [reflexivity|]. by rewrite Hc, IH.
Qed.

Lemma split_token (t : pystr) : token t -> split t = [t].
Proof.
  intros [Hne Ht]. destruct Ht as [|c t Hc Ht]; [done|].
  by rewrite split_scan, span_token_end.
Qed.

Lemma split_token_app (t b : pystr) (w : ascii) :
  token t -> is_space w = true -> split (t ++ w :: b) = t :: split b.
Proof.
  intros [Hne Ht] Hw. destruct Ht as [|c t Hc Ht]; [done|].
  cbn [app]. rewrite split_scan, span_token_tail by done.
  cbn [fst snd split]. by rewrite Hw.
Qed.

Lemma split_tokens (s : pystr) : Forall token (split s).
Proof.
  induction s as [|c s IH]; [constructor|].
  cbn [split]. destruct (is_space c) eqn:Hc; [exact IH|].
  assert (Hone : token [c]) by (split; [done|by repeat constructor]).
  destruct s as [|c' s]; [by repeat constructor|].
  destruct (is_space c') eqn:Hc'; [by constructor|].
  destruct (split (c' :: s)) as [|t ts]; [by repeat constructor|].
  inversion IH as [|? ? [Hne Ht] Hts]; subst.
  constructor; [|done]. split; [done|by constructor].
Qed.

Lemma split_present (s : pystr) : s = [] \/ token s -> split s = present s.
Proof.
  intros [->|Ht]; [reflexivity|].
  rewrite split_token by done. unfold present.
  destruct Ht as [Hne _]. by destruct s.
Qed.

Lemma split_join_app (ts : list pystr) (b : pystr) :
  Forall token ts -> split (join (lit " ") ts ++ lit " " ++ b) = ts ++ split b.
Proof.
  induction 1 as [|t ts Ht Hts IH]; [reflexivity|].
  destruct ts as [|t' ts].
  - cbn [join]. by apply split_token_app.
  - change (join (lit " ") (t :: t' :: ts))
      with (t ++ lit " " ++ join (lit " ") (t' :: ts)).
    rewrite <- !app_assoc. change (lit " " ++ ?x) with (" "%char :: x).
    rewrite split_token_app by done.
    cbn [app]. f_equal. exact IH.
Qed.

Lemma split_join (ts : list pystr) : Forall token ts -> split (join (lit " ") ts) = ts.
Proof.
  intros Hts. pose proof (split_join_app ts [] Hts) as H.
  change (split []) with (@nil pystr) in H. rewrite !app_nil_r in H.
  rewrite <- H at 2.
  symmetry. apply split_app_blank. by repeat constructor.
Qed.

(** ** Uppercasing *)

Lemma upper_idem (s : pystr) : upper (upper s) = upper s.
Proof.
  unfold upper. rewrite map_map. apply map_ext. intros c. apply upper_char_idem.
Qed.

Lemma upper_app (a b : pystr) : upper (a ++ b) = upper a ++ upper b.
Proof. apply map_app. Qed.

Lemma upper_join (ts : list pystr) :
  upper (join (lit " ") ts) = join (lit " ") (map upper ts).
Proof.
  induction ts as [|t ts IH]; [reflexivity|].
  destruct ts as [|t' ts]; [reflexivity|].
  change (join (lit " ") (t :: t' :: ts))
    with (t ++ lit " " ++ join (lit " ") (t' :: ts)).
  rewrite !upper_app, IH. reflexivity.
Qed.

Lemma token_upper (t : pystr) : token t -> token (upper t).
Proof.
  intros [Hne Ht]. split.
  - by destruct t.
  - unfold upper. apply Forall_map. eapply Forall_impl; [exact Ht|].
    intros c Hc. cbn. by rewrite is_space_upper_char.
Qed.

Lemma tokens_upper (ts : list pystr) : Forall token ts -> Forall token (map upper ts).
Proof. intros H. apply Forall_map. eapply Forall_impl; [exact H|]. apply token_upper. Qed.

(** ** [parse_address] in terms of its tokens *)

Lemma truthy_snoc {A} (l : list A) (x : A) : truthy (l ++ [x]) = true.
Proof. by destruct l. Qed.

Lemma take_snoc_init {A} (l : list A) (x : A) :
  take (length (l ++ [x]) - 1) (l ++ [x]) = l.
Proof.
  rewrite length_app. cbn [length].
  replace (length l + 1 - 1)%nat with (length l) by lia.
  by rewrite take_app_length.
Qed.

Lemma split_type_snoc (l : list pystr) (x : pystr) :
  split_type (l ++ [x])
  = if py_in TYPE_TO_CANONICAL (upper x) then (l, x) else (l ++ [x], []).
Proof. unfold split_type. by rewrite last_snoc, take_snoc_init. Qed.

Lemma parse_address_tokens (address : pystr) :
  truthy address = true ->
  parse_address address
  = Ok (let addr := strip address in
        let '(number, name_parts, type) := components (split (remainder addr)) in
        mkParsed number (join (lit " ") name_parts) type (unit_of addr) address).
Proof.
  intros Haddr. unfold parse_address, remainder, unit_of. rewrite Haddr. cbn [negb].
  cbv zeta.
  set (found := unit_search (strip address)).
  assert (Htail : forall (u : pystr) (parts : list pystr),
    (if negb (truthy parts) then Ok (mkParsed [] [] [] u address)
     else
       first ← py_index parts 0;
       (let '(result, parts) :=
          if isdigit first || match_number first
          then (set_street_number first (mkParsed [] [] [] u address), drop 1 parts)
          else (mkParsed [] [] [] u address, parts) in
        if negb (truthy parts) then Ok result
        else
          last_part ← py_index parts (-1);
          (let '(result, parts) :=
             if py_in TYPE_TO_CANONICAL (upper last_part)
             then (set_street_type last_part result, take (length parts - 1) parts)
             else (result, parts) in
           Ok (set_street_name (join (lit " ") parts) result))))
    = Ok (let '(number, name_parts, type) := components parts in
          mkParsed number (join (lit " ") name_parts) type u address)).
  { intros u parts. unfold components.
    destruct parts as [|first rest]; [reflexivity|].
    cbn [truthy negb]. rewrite (py_index_nat _ 0 first) by reflexivity.
    cbn [mbind PyResult_bind split_number].
    destruct (isdigit first || match_number first); cbn [drop].
    - rewrite drop_0. destruct rest as [|x l _] using rev_ind; [reflexivity|].
      rewrite truthy_snoc. cbn [negb]. rewrite py_index_last, split_type_snoc.
      cbn [mbind PyResult_bind]. rewrite take_snoc_init.
      by destruct (py_in TYPE_TO_CANONICAL (upper x)).
    - destruct (exists_last (l := first :: rest)) as (l & x & Hl); [done|].
      rewrite Hl. rewrite truthy_snoc. cbn [negb].
      rewrite py_index_last, split_type_snoc.
      cbn [mbind PyResult_bind]. rewrite take_snoc_init.
      by destruct (py_in TYPE_TO_CANONICAL (upper x)). }
  destruct found as [m|]; apply Htail.
Qed.

Lemma normalize_address_tokens (address : pystr) :
  truthy address = true ->
  normalize_address address
  = Ok (render (components (split (remainder (strip address))))).
Proof.
  intros Haddr. unfold normalize_address. rewrite Haddr. cbn [negb].
  rewrite parse_address_tokens by done. cbn [mbind PyResult_bind].
  unfold render, canonical_type.
  by destruct (components _) as [[number name_parts] type].
Qed.

(** ** The street-type table *)

Lemma type_table_entries :
  map_Forall (fun _ canonical => entry_ok canonical = true) TYPE_TO_CANONICAL.
Proof. apply (bool_decide_unpack _). vm_compute. exact I. Qed.

Lemma token_forallb (t : pystr) :
  truthy t = true -> forallb (fun c => negb (is_space c)) t = true -> token t.
Proof.
  intros Hne Hall. split; [by destruct t|].
  apply Forall_forall. intros c Hc.
  rewrite forallb_forall in Hall. specialize (Hall c).
  rewrite <- list_elem_of_In in Hall. specialize (Hall Hc). by destruct (is_space c).
Qed.

Lemma type_table_entry (k canonical : pystr) :
  TYPE_TO_CANONICAL !! k = Some canonical ->
  upper canonical = canonical
  /\ TYPE_TO_CANONICAL !! canonical = Some canonical
  /\ token canonical
  /\ isdigit canonical || match_number canonical = false.
Proof.
  intros Hk. pose proof (type_table_entries k canonical Hk) as Hok.
  unfold entry_ok in Hok. rewrite !andb_true_iff in Hok.
  destruct Hok as [[[[H1 H2] H3] H4] H5].
  apply bool_decide_eq_true_1 in H1, H2.
  repeat split; try done.
  - by destruct canonical.
  - by apply token_forallb.
  - by apply negb_true_iff.
Qed.

(** ** The number test does not depend on case *)

Lemma truthy_upper (s : pystr) : truthy (upper s) = truthy s.
Proof. by destruct s. Qed.

Lemma span_digit_upper (s : pystr) :
  span is_digit (upper s) = (upper (span is_digit s).1, upper (span is_digit s).2).
Proof.
  induction s as [|c s IH]; [reflexivity|].
  cbn [upper map span]. fold (upper s). rewrite is_digit_upper_char, IH.
  destruct (is_digit c); [|reflexivity].
  by destruct (span is_digit s).
Qed.

Lemma upper_char_line_feed (c : ascii) :
  bool_decide (upper_char c = "010"%char) = bool_decide (c = "010"%char).
Proof. by_cases_on_char c. Qed.

Lemma at_dollar_upper (s : pystr) : at_dollar (upper s) = at_dollar s.
Proof.
  destruct s as [|c [|c' s]]; try reflexivity. apply upper_char_line_feed.
Qed.

Lemma isdigit_upper (s : pystr) : isdigit (upper s) = isdigit s.
Proof.
  unfold isdigit. rewrite truthy_upper. f_equal.
  induction s as [|c s IH]; [reflexivity|].
  cbn [upper map forallb]. fold (upper s). by rewrite is_digit_upper_char, IH.
Qed.

Lemma match_number_upper (s : pystr) : match_number (upper s) = match_number s.
Proof.
  unfold match_number. rewrite span_digit_upper.
  destruct (span is_digit s) as [digits rest]. cbn [fst snd].
  rewrite truthy_upper. f_equal.
  destruct rest as [|c rest]; [reflexivity|].
  change (upper (c :: rest)) with (upper_char c :: upper rest). cbv iota beta.
  rewrite is_alpha_upper_char, at_dollar_upper.
  change (upper_char c :: upper rest) with (upper (c :: rest)).
  by rewrite at_dollar_upper.
Qed.

Lemma number_test_upper (s : pystr) :
  isdigit (upper s) || match_number (upper s) = isdigit s || match_number s.
Proof. by rewrite isdigit_upper, match_number_upper. Qed.

(** ** The key is stable under a second pass over its own tokens *)

Lemma py_in_true {V} (d : gmap pystr V) (k : pystr) :
  py_in d k = true -> exists v, d !! k = Some v.
Proof. unfold py_in. intros H. by apply bool_decide_eq_true_1 in H as [v Hv]; exists v. Qed.

Lemma py_in_some {V} (d : gmap pystr V) (k : pystr) (v : V) :
  d !! k = Some v -> py_in d k = true.
Proof. unfold py_in. intros H. apply bool_decide_eq_true_2. by eexists. Qed.

Lemma canonical_type_known (type canonical : pystr) :
  TYPE_TO_CANONICAL !! upper type = Some canonical -> canonical_type type = canonical.
Proof. unfold canonical_type, py_get. by intros ->. Qed.

Lemma canonical_type_nil : canonical_type [] = [].
Proof. vm_compute. reflexivity. Qed.

Lemma present_token (t : pystr) : token t -> present t = [t].
Proof. intros [Hne _]. unfold present. by destruct t. Qed.

Lemma split_fmt3 (number : pystr) (name_parts : list pystr) (type : pystr) :
  number = [] \/ token number ->
  Forall token name_parts ->
  type = [] \/ token type ->
  split (strip (fmt3 number (upper (join (lit " ") name_parts)) type))
  = present number ++ map upper name_parts ++ present type.
Proof.
  intros Hnum Hname Htype. rewrite split_strip, upper_join. unfold fmt3.
  assert (Hrest : split (join (lit " ") (map upper name_parts) ++ lit " " ++ type)
                  = map upper name_parts ++ present type).
  { rewrite split_join_app by by apply tokens_upper. by rewrite split_present. }
  destruct Hnum as [->|Hnum].
  - cbn [present truthy app]. change (lit " " ++ ?x) with (" "%char :: x).
    rewrite split_cons. cbn [is_space]. exact Hrest.
  - rewrite present_token by done. change (lit " " ++ ?x) with (" "%char :: x) at 1.
    rewrite split_token_app by done. cbn [app]. f_equal. exact Hrest.
Qed.

Lemma split_type_stable (l : list pystr) :
  Forall token l ->
  split_type (map upper (split_type l).1 ++ present (canonical_type (split_type l).2))
  = (map upper (split_type l).1, canonical_type (split_type l).2)
  /\ canonical_type (canonical_type (split_type l).2) = canonical_type (split_type l).2
  /\ (canonical_type (split_type l).2 = [] \/ token (canonical_type (split_type l).2))
  /\ Forall token (split_type l).1.
Proof.
  intros Hl. destruct l as [|x l _] using rev_ind.
  - cbn. rewrite canonical_type_nil. repeat split; try done. by left.
  - rewrite split_type_snoc. apply Forall_app in Hl as [Hl Hx].
    destruct (py_in TYPE_TO_CANONICAL (upper x)) eqn:Hin; cbn [fst snd].
    + apply py_in_true in Hin as [v Hv].
      rewrite (canonical_type_known _ _ Hv).
      destruct (type_table_entry _ _ Hv) as (Hup & Hself & Htok & _).
      rewrite present_token by done. rewrite split_type_snoc.
      rewrite Hup, (py_in_some _ _ _ Hself).
      repeat split; try done.
      * apply canonical_type_known. by rewrite Hup.
      * by right.
    + rewrite canonical_type_nil. cbn [present truthy]. rewrite app_nil_r.
      rewrite map_app. cbn [map]. rewrite split_type_snoc, upper_idem, Hin.
      repeat split; try done.
      * by left.
      * by apply Forall_app.
Qed.

Lemma split_number_stable (parts : list pystr) :
  Forall token parts ->
  let number := (split_number parts).1 in
  let rest := (split_number parts).2 in
  split_number (present number ++ map upper (split_type rest).1
                  ++ present (canonical_type (split_type rest).2))
  = (number, map upper (split_type rest).1 ++ present (canonical_type (split_type rest).2))
  /\ (number = [] \/ token number)
  /\ Forall token rest.
Proof.
  intros Hparts. destruct parts as [|first rest]; cbn zeta.
  - cbn. rewrite canonical_type_nil. repeat split; try done. by left.
  - inversion Hparts as [|? ? Hfirst Hrest]; subst.
    cbn [split_number].
    destruct (isdigit first || match_number first) eqn:Htest; cbn [fst snd].
    + rewrite present_token by done. cbn [app split_number]. rewrite Htest.
      repeat split; try done. by right.
    + cbn [present truthy app]. split; [|split; [by left|done]].
      destruct (exists_last (l := first :: rest)) as (l & x & Hl); [done|].
      rewrite Hl, split_type_snoc.
      destruct (py_in TYPE_TO_CANONICAL (upper x)) eqn:Hin; cbn [fst snd].
      * apply py_in_true in Hin as [v Hv].
        rewrite (canonical_type_known _ _ Hv).
        destruct (type_table_entry _ _ Hv) as (_ & _ & Htok & Hnum).
        rewrite present_token by done.
        destruct l as [|h l].
        -- cbn [map app split_number]. by rewrite Hnum.
        -- cbn in Hl. injection Hl as <- _.
           cbn [map app split_number]. by rewrite number_test_upper, Htest.
      * rewrite canonical_type_nil. cbn [present truthy]. rewrite app_nil_r.
        rewrite <- Hl. cbn [map split_number].
        by rewrite number_test_upper, Htest.
Qed.

Lemma components_stable (parts : list pystr) :
  Forall token parts ->
  render (components (split (render (components parts)))) = render (components parts).
Proof.
  intros Hparts.
  destruct (split_number_stable parts Hparts) as (Hnum & Hnumber & Hrest).
  destruct (split_type_stable _ Hrest) as (Htype & Hcanon & Hctype & Hname).
  unfold components in *.
  destruct (split_number parts) as [number rest]. cbn [fst snd] in *.
  destruct (split_type rest) as [name_parts type]. cbn [fst snd] in *.
  unfold render at 2 3.
  rewrite split_fmt3 by done. rewrite Hnum, Htype.
  unfold render. by rewrite <- upper_join, upper_idem, Hcanon.
Qed.

(** ** Blank input *)

Lemma split_nil_blank (s : pystr) : split s = [] -> blank s.
Proof.
  induction s as [|c s IH]; [constructor|].
  destruct (is_space c) eqn:Hc.
  - rewrite split_cons, Hc. intros Hs. constructor; [done|by apply IH].
  - by rewrite split_scan.
Qed.

Lemma blank_strip (s : pystr) : blank s -> strip s = [].
Proof.
  intros Hs. unfold strip.
  by rewrite <- (app_nil_r s), lstrip_blank_app.
Qed.

(** ** A unit designator is never empty *)

Lemma unit_tail_nonempty (s g : pystr) : unit_tail s = Some g -> truthy g = true.
Proof.
  unfold unit_tail. destruct (span is_unit_char (lstrip s)) as [tok rest].
  destruct (truthy tok) eqn:Htok; [|discriminate].
  destruct (at_dollar (lstrip rest)); [|discriminate].
  by intros [= <-].
Qed.

Lemma unit_alternative_nonempty (marker : pystr * bool) (s g : pystr) :
  unit_alternative marker s = Some g -> truthy g = true.
Proof.
  unfold unit_alternative.
  destruct (eat_nocase marker.1 s) as [r|]; [|discriminate].
  destruct marker.2.
  - destruct (eat (lit ".") r) as [r'|]; [|apply unit_tail_nonempty].
    destruct (unit_tail r') as [g'|] eqn:Hr'; [|apply unit_tail_nonempty].
    intros [= <-]. by apply unit_tail_nonempty in Hr'.
  - apply unit_tail_nonempty.
Qed.

Lemma unit_match_at_nonempty (s g : pystr) :
  unit_match_at s = Some g -> truthy g = true.
Proof.
  unfold unit_match_at. induction unit_markers as [|marker markers IH]; [discriminate|].
  cbn [foldr]. destruct (unit_alternative marker s) as [g'|] eqn:Halt; [|exact IH].
  intros [= <-]. by apply unit_alternative_nonempty in Halt.
Qed.

Lemma unit_search_from_nonempty (i : nat) (s : pystr) (m : UnitMatch) :
  unit_search_from i s = Some m -> truthy (um_group2 m) = true.
Proof.
  revert i. induction s as [|c s IH]; intros i; cbn [unit_search_from].
  - destruct (unit_match_at []) as [g|] eqn:Hg; [|discriminate].
    intros [= <-]. by apply unit_match_at_nonempty in Hg.
  - destruct (unit_match_at (c :: s)) as [g|] eqn:Hg; [|apply IH].
    intros [= <-]. by apply unit_match_at_nonempty in Hg.
Qed.

Lemma unit_search_nil : unit_search [] = None.
Proof. vm_compute. reflexivity. Qed.

(** ** Tokens always leave a component *)

Lemma join_snoc_nonempty (l : list pystr) (x : pystr) :
  truthy x = true -> truthy (join (lit " ") (l ++ [x])) = true.
Proof.
  intros Hx. destruct l as [|h l]; [exact Hx|].
  cbn [app]. destruct (l ++ [x]) as [|h' l'] eqn:Hl; [by destruct l|].
  change (join (lit " ") (h :: h' :: l')) with (h ++ lit " " ++ join (lit " ") (h' :: l')).
  by destruct h.
Qed.

Lemma token_truthy (t : pystr) : token t -> truthy t = true.
Proof. intros [Hne _]. by destruct t. Qed.

Lemma components_nonempty (parts : list pystr) :
  Forall token parts -> parts <> [] ->
  truthy (components parts).1.1 = true
  \/ truthy (join (lit " ") (components parts).1.2) = true
  \/ truthy (components parts).2 = true.
Proof.
  intros Hparts Hne. destruct parts as [|first rest]; [done|].
  inversion Hparts as [|? ? Hfirst Hrest]; subst.
  unfold components. cbn [split_number].
  destruct (isdigit first || match_number first).
  - left. destruct (split_type rest). by apply token_truthy.
  - right. destruct (exists_last (l := first :: rest)) as (l & x & Hl); [done|].
    rewrite Hl in *. rewrite split_type_snoc.
    apply Forall_app in Hparts as [_ Hx]. inversion Hx as [|? ? Hx' _]; subst.
    destruct (py_in TYPE_TO_CANONICAL (upper x)); cbn [fst snd].
    + right. by apply token_truthy.
    + left. apply join_snoc_nonempty. by apply token_truthy.
Qed.

Lemma truthy_false {A} (l : list A) : truthy l = false <-> l = [].
Proof. by destruct l. Qed.

(** ** Lengths *)

Lemma length_lstrip (s : pystr) : (length (lstrip s) <= length s)%nat.
Proof.
  destruct (lstrip_decomp s) as (ws & _ & Hs). rewrite Hs at 2.
  rewrite length_app. lia.
Qed.

Lemma length_strip (s : pystr) : (length (strip s) <= length s)%nat.
Proof.
  destruct (strip_decomp s) as (ws1 & ws2 & _ & _ & Hs). rewrite Hs at 2.
  rewrite !length_app. lia.
Qed.

Lemma length_upper (s : pystr) : length (upper s) = length s.
Proof. apply length_map. Qed.

Lemma length_span (p : ascii -> bool) (s : pystr) :
  (length (span p s).1 <= length s)%nat.
Proof.
  induction s as [|c s IH]; [done|]. cbn [span].
  destruct (p c); [|cbn; lia].
  destruct (span p s) as [run rest]. cbn in *. lia.
Qed.

Lemma length_eat_nocase (literal s r : pystr) :
  eat_nocase literal s = Some r -> length s = (length literal + length r)%nat.
Proof.
  revert s. induction literal as [|l literal IH]; intros s; cbn [eat_nocase].
  - by intros [= ->].
  - destruct s as [|c s]; [discriminate|].
    destruct (bool_decide _); [|discriminate].
    intros H. apply IH in H. cbn. lia.
Qed.

Lemma length_eat (literal s r : pystr) :
  eat literal s = Some r -> length s = (length literal + length r)%nat.
Proof.
  revert s. induction literal as [|l literal IH]; intros s; cbn [eat].
  - by intros [= ->].
  - destruct s as [|c s]; [discriminate|].
    destruct (bool_decide _); [|discriminate].
    intros H. apply IH in H. cbn. lia.
Qed.

Lemma length_unit_tail (s g : pystr) : unit_tail s = Some g -> (1 <= length s)%nat.
Proof.
  intros H. pose proof (unit_tail_nonempty _ _ H) as Hg. revert H.
  unfold unit_tail.
  pose proof (length_span is_unit_char (lstrip s)) as Hspan.
  pose proof (length_lstrip s) as Hl.
  destruct (span is_unit_char (lstrip s)) as [tok rest]. cbn [fst] in Hspan.
  destruct (truthy tok && at_dollar (lstrip rest)); [|discriminate].
  intros [= ->]. destruct g; [discriminate|]. cbn in Hspan. lia.
Qed.

Lemma length_unit_alternative (marker : pystr * bool) (s g : pystr) :
  unit_alternative marker s = Some g -> (length marker.1 + 1 <= length s)%nat.
Proof.
  unfold unit_alternative.
  destruct (eat_nocase marker.1 s) as [r|] eqn:Heat; [|discriminate].
  apply length_eat_nocase in Heat.
  assert (Htail : forall g', unit_tail r = Some g' -> (length marker.1 + 1 <= length s)%nat).
  { intros g' Hg'. apply length_unit_tail in Hg'. lia. }
  destruct marker.2; [|apply Htail].
  destruct (eat (lit ".") r) as [r'|] eqn:Hdot; [|apply Htail].
  destruct (unit_tail r') as [g'|] eqn:Hr'; [|apply Htail].
  intros _. apply length_eat in Hdot. apply length_unit_tail in Hr'. lia.
Qed.

Lemma length_unit_match_at (s g : pystr) :
  unit_match_at s = Some g -> (2 <= length s)%nat.
Proof.
  unfold unit_match_at.
  assert (Hmarkers : Forall (fun marker => (1 <= length marker.1)%nat) unit_markers)
    by (repeat constructor).
  induction Hmarkers as [|marker markers Hm _ IH]; [discriminate|].
  cbn [foldr]. destruct (unit_alternative marker s) as [g'|] eqn:Halt; [|exact IH].
  intros _. apply length_unit_alternative in Halt. cbn beta in Hm. unfold pystr in *. lia.
Qed.

Lemma unit_search_from_start (i : nat) (s : pystr) (m : UnitMatch) :
  unit_search_from i s = Some m ->
  (i <= um_start m /\ um_start m + 2 <= i + length s)%nat.
Proof.
  revert i. induction s as [|c s IH]; intros i; cbn [unit_search_from].
  - destruct (unit_match_at []) as [g|] eqn:Hg; [|discriminate].
    apply length_unit_match_at in Hg. cbn in Hg. lia.
  - destruct (unit_match_at (c :: s)) as [g|] eqn:Hg.
    + intros [= <-]. apply length_unit_match_at in Hg. cbn [um_start]. lia.
    + intros H. apply IH in H. cbn [length]. lia.
Qed.

Lemma join_cons_cons (sep : pystr) (c : ascii) (t : pystr) (ts : list pystr) :
  join sep ((c :: t) :: ts) = c :: join sep (t :: ts).
Proof. by destruct ts. Qed.

Lemma join_cons (t : pystr) (ts : list pystr) :
  ts <> [] -> join (lit " ") (t :: ts) = t ++ lit " " ++ join (lit " ") ts.
Proof. by destruct ts. Qed.

Lemma length_join_cons (t : pystr) (ts : list pystr) :
  ts <> [] ->
  length (join (lit " ") (t :: ts)) = (length t + 1 + length (join (lit " ") ts))%nat.
Proof. intros Hts. rewrite join_cons by done. rewrite !length_app. cbn. lia. Qed.

Lemma join_snoc (l : list pystr) (x : pystr) :
  l <> [] -> join (lit " ") (l ++ [x]) = join (lit " ") l ++ lit " " ++ x.
Proof.
  induction l as [|h l IH]; [done|]. intros _.
  destruct l as [|h' l]; [reflexivity|].
  change ((h :: h' :: l) ++ [x]) with (h :: ((h' :: l) ++ [x])).
  rewrite join_cons by done. rewrite IH by done.
  rewrite (join_cons h (h' :: l)) by done. by rewrite <- !app_assoc.
Qed.

Lemma length_join_split (s : pystr) :
  (length (join (lit " ") (split s)) <= length s)%nat.
Proof.
  remember (length s) as n eqn:Hn. revert s Hn.
  induction n as [n IH] using lt_wf_ind. intros s ->.
  destruct s as [|c s]; [done|].
  rewrite split_cons. destruct (is_space c).
  - specialize (IH (length s) ltac:(cbn; lia) s eq_refl). cbn [length]. lia.
  - destruct s as [|c' s]; [cbn; lia|].
    destruct (is_space c') eqn:Hc'.
    + rewrite split_cons, Hc'.
      specialize (IH (length s) ltac:(cbn; lia) s eq_refl).
      destruct (split s) as [|t ts]; [cbn; lia|].
      rewrite length_join_cons by done. cbn [length] in *. unfold pystr in *. lia.
    + specialize (IH (length (c' :: s)) ltac:(cbn; lia) (c' :: s) eq_refl).
      destruct (split (c' :: s)) as [|t ts]; [cbn; lia|].
      rewrite join_cons_cons. cbn [length] in *. lia.
Qed.

Lemma strip_cons_space (c : ascii) (s : pystr) :
  is_space c = true -> strip (c :: s) = strip s.
Proof. intros Hc. unfold strip. cbn [lstrip]. by rewrite Hc. Qed.

Lemma rstrip_snoc_space (c : ascii) (s : pystr) :
  is_space c = true -> rstrip (s ++ [c]) = rstrip s.
Proof. intros Hc. unfold rstrip. rewrite rev_unit. cbn [lstrip]. by rewrite Hc. Qed.

Lemma lstrip_app (s b : pystr) : lstrip s <> [] -> lstrip (s ++ b) = lstrip s ++ b.
Proof.
  induction s as [|c s IH]; [done|]. cbn [app lstrip].
  destruct (is_space c); [exact IH|done].
Qed.

Lemma strip_snoc_space (c : ascii) (s : pystr) :
  is_space c = true -> strip (s ++ [c]) = strip s.
Proof.
  intros Hc. unfold strip.
  destruct (lstrip s) as [|h t] eqn:Hs.
  - destruct (lstrip_decomp s) as (ws & Hws & Heq). rewrite Hs, app_nil_r in Heq.
    subst ws. rewrite lstrip_blank_app by done. cbn. by rewrite Hc.
  - rewrite lstrip_app by (by rewrite Hs). rewrite Hs. by apply rstrip_snoc_space.
Qed.

(** No canonical form is longer than a spelling it stands for. *)
Lemma type_table_lengths :
  map_Forall (fun spelling canonical => (length canonical <= length spelling)%nat)
             TYPE_TO_CANONICAL.
Proof. apply (bool_decide_unpack _). vm_compute. exact I. Qed.

Lemma length_canonical_type (type : pystr) :
  (length (canonical_type type) <= length type)%nat.
Proof.
  unfold canonical_type, py_get.
  destruct (TYPE_TO_CANONICAL !! upper type) as [v|] eqn:Hv.
  - apply type_table_lengths in Hv. cbn beta in Hv. by rewrite length_upper in Hv.
  - by rewrite length_upper.
Qed.

Lemma length_join_snoc (l : list pystr) (x : pystr) :
  (length (join (lit " ") l) + length x <= length (join (lit " ") (l ++ [x])))%nat
  /\ (l <> [] ->
      length (join (lit " ") (l ++ [x]))
      = (length (join (lit " ") l) + 1 + length x)%nat).
Proof.
  destruct l as [|h l].
  - cbn. split; [lia|done].
  - rewrite join_snoc by done. rewrite !length_app. cbn [length lit list_ascii_of_string] in *.
    split; [|intros _]; lia.
Qed.

Lemma length_fmt3 (a b c : pystr) :
  length (fmt3 a b c) = (length a + 1 + length b + 1 + length c)%nat.
Proof. unfold fmt3. rewrite !length_app. cbn. lia. Qed.

(** The key is at most one character longer than its tokens joined by
    single spaces: the extra character is the second space of a key without
    a street name. *)
Lemma length_render (parts : list pystr) :
  (length (render (components parts)) <= length (join (lit " ") parts) + 1)%nat.
Proof.
  unfold components, render.
  destruct parts as [|first rest].
  - cbn [split_number split_type last]. rewrite canonical_type_nil. vm_compute. lia.
  - cbn [split_number].
    destruct (isdigit first || match_number first).
    + destruct rest as [|x l _] using rev_ind.
      * cbn [split_type last]. rewrite canonical_type_nil.
        change (fmt3 first (upper (join (lit " ") [])) [])
          with (first ++ [" "%char] ++ [" "%char]).
        rewrite app_assoc, strip_snoc_space by done.
        etransitivity; [apply length_strip|]. rewrite length_app. cbn. lia.
      * rewrite split_type_snoc, join_cons by (by destruct l).
        rewrite !length_app.
        destruct (length_join_snoc l x) as [Hle Heq].
        destruct (py_in TYPE_TO_CANONICAL (upper x)).
        -- etransitivity; [apply length_strip|].
           rewrite length_fmt3, length_upper.
           pose proof (length_canonical_type x). cbn [length lit list_ascii_of_string] in *.
           destruct l as [|h l]; [cbn in *; lia|]. rewrite Heq by done. lia.
        -- rewrite canonical_type_nil. unfold fmt3.
           change (lit " ") with [" "%char] in *.
           rewrite app_nil_r, !app_assoc, strip_snoc_space by done.
           etransitivity; [apply length_strip|].
           rewrite !length_app, length_upper. cbn [length]. lia.
    + destruct (exists_last (l := first :: rest)) as (l & x & Hl); [done|].
      rewrite Hl, split_type_snoc.
      destruct (length_join_snoc l x) as [Hle Heq].
      destruct (py_in TYPE_TO_CANONICAL (upper x));
        unfold fmt3; change (lit " ") with [" "%char] in *; cbn [app];
        rewrite strip_cons_space by done.
      * etransitivity; [apply length_strip|].
        rewrite length_app, length_upper. cbn [length].
        pose proof (length_canonical_type x).
        destruct l as [|h l]; [cbn in *; lia|]. rewrite Heq by done. lia.
      * rewrite canonical_type_nil, strip_snoc_space by done.
        etransitivity; [apply length_strip|]. rewrite length_upper. lia.
Qed.

(** A key in which the unit pattern finds a unit designator is changed by
    another normalisation: the designator is cut off. *)
Lemma normalize_address_cuts_unit (y : pystr) (m : UnitMatch) :
  strip y = y ->
  unit_search y = Some m ->
  normalize_address y <> Ok y.
Proof.
  intros Hstrip Hunit.
  assert (Hy : truthy y = true).
  { destruct y; [|done]. by rewrite unit_search_nil in Hunit. }
  rewrite normalize_address_tokens by done.
  rewrite Hstrip. unfold remainder. rewrite Hunit.
  apply unit_search_from_start in Hunit as [_ Hstart].
  intros [= Heq]. apply (f_equal length) in Heq.
  pose proof (length_render (split (strip (take (um_start m) y)))) as H1.
  pose proof (length_join_split (strip (take (um_start m) y))) as H2.
  pose proof (length_strip (take (um_start m) y)) as H3.
  pose proof (length_take_le y (um_start m)) as H4.
  unfold pystr in *. lia.
Qed.

(** ** The parser and the canonical key *)

(** C8. [parse_address] returns a record for every input and never raises.
    The field [original] is the input itself.  The other four fields are
    all empty exactly when the input holds no token, that is when it is
    empty or made of whitespace only. *)
Theorem parse_address_total (address : pystr) :
  exists parsed : ParsedAddress,
    parse_address address = Ok parsed
    /\ original parsed = address
    /\ (blank address <->
        street_number parsed = [] /\ street_name parsed = []
        /\ street_type parsed = [] /\ unit parsed = []).
Proof.
  destruct (truthy address) eqn:Haddr.
  - rewrite parse_address_tokens by done. cbv zeta.
    destruct (components (split (remainder (strip address))))
      as [[number name_parts] type] eqn:Hc.
    eexists. split; [reflexivity|]. split; [reflexivity|].
    cbn [street_number street_name street_type unit].
    split.
    + intros Hblank. apply blank_strip in Hblank.
      rewrite Hblank in Hc |- *. unfold unit_of. rewrite unit_search_nil.
      unfold remainder in Hc. rewrite unit_search_nil in Hc.
      cbn in Hc. by injection Hc as <- <- <-.
    + intros (Hnum & Hname & Htype & Hunit).
      unfold unit_of, remainder in *.
      destruct (unit_search (strip address)) as [m|] eqn:Hsearch.
      * apply unit_search_from_nonempty in Hsearch. by rewrite Hunit in Hsearch.
      * apply split_nil_blank. rewrite <- split_strip.
        destruct (split (strip address)) as [|first rest] eqn:Hparts; [done|].
        exfalso.
        destruct (components_nonempty (first :: rest)) as [H|[H|H]];
          [rewrite <- Hparts; apply split_tokens|done|..];
          rewrite Hc in H; cbn [fst snd] in H; by rewrite ?Hnum, ?Hname, ?Htype in H.
  - apply truthy_false in Haddr as ->.
    eexists. split; [reflexivity|]. split; [reflexivity|].
    split; [done|]. intros _. constructor.
Qed.

(** The key of an address is stripped. *)
Lemma render_stripped (c : pystr * list pystr * pystr) : strip (render c) = render c.
Proof. destruct c as [[number name_parts] type]. apply strip_idem. Qed.

(** A second normalisation strips a unit that the first one left in the
    key, against the claim that [normalize_address] is idempotent. *)
Lemma normalize_address_idempotent_counterexample :
  ~ (forall x y : pystr,
        normalize_address x = Ok y -> normalize_address y = Ok y).
Proof.
  intros Hclaim.
  specialize (Hclaim "123 Main St Apt 4 Apt 5" "123 MAIN ST APT 4"
                ltac:(vm_compute; reflexivity)).
  vm_compute in Hclaim. discriminate Hclaim.
Qed.

(** C3 (amended). [normalize_address] always returns a key, and normalising
    the key again gives the key back exactly when the unit pattern finds no
    unit designator in it. *)
Theorem normalize_address_idempotent_without_unit (x : pystr) :
  exists y : pystr,
    normalize_address x = Ok y
    /\ (unit_search y = None <-> normalize_address y = Ok y).
Proof.
  destruct (truthy x) eqn:Hx.
  - rewrite normalize_address_tokens by done.
    set (parts := split (remainder (strip x))).
    assert (Hparts : Forall token parts) by apply split_tokens.
    exists (render (components parts)). split; [reflexivity|].
    split.
    + intros Hunit.
      destruct (truthy (render (components parts))) eqn:Hy.
      * rewrite normalize_address_tokens by done.
        rewrite render_stripped. unfold remainder at 1. rewrite Hunit.
        by rewrite components_stable.
      * apply truthy_false in Hy. by rewrite Hy.
    + intros Hsame.
      destruct (unit_search (render (components parts))) as [m|] eqn:Hunit; [|done].
      exfalso. by apply (normalize_address_cuts_unit _ m (render_stripped _) Hunit).
  - apply truthy_false in Hx as ->. exists []. split; [reflexivity|].
    split; [reflexivity|]. intros _. apply unit_search_nil.
Qed.

Lemma normalize_address_idempotent_without_unit_witness :
  unit_search "2700 SHATTUCK AV" = None
  /\ normalize_address "2700 Shattuck Avenue #101" = Ok (lit "2700 SHATTUCK AV")
  /\ normalize_address "2700 SHATTUCK AV" = Ok (lit "2700 SHATTUCK AV").
Proof.
  destruct (normalize_address_idempotent_without_unit "2700 Shattuck Avenue #101")
    as (y & Hy & Hidem).
  assert (Hkey : normalize_address "2700 Shattuck Avenue #101" = Ok (lit "2700 SHATTUCK AV"))
    by (vm_compute; reflexivity).
  rewrite Hkey in Hy. injection Hy as <-.
  split; [vm_compute; reflexivity|]. split; [exact Hkey|].
  apply Hidem. vm_compute; reflexivity.
Defined.

(** ** Bounds validation *)

(** [a <= b] on binary64 values, as Python compares floats. *)
Notation "a <=f b" := ((a <=? b)%float = true) (at level 70, no associativity).

(** C9. For the city "Berkeley", [validate_coordinates] answers true exactly
    when the latitude lies in the closed interval from 37.84 to 37.91 and the
    longitude in the closed interval from -122.32 to -122.23; the four bounds
    themselves are accepted, (37.87, -122.27) is accepted and
    (40.0, -122.27) is refused. *)
Theorem validate_coordinates_berkeley_box :
  (forall lat lon : float,
      validate_coordinates lat lon "Berkeley" = true <->
      (37.84%float <=f lat /\ lat <=f 37.91%float) /\
      ((-122.32)%float <=f lon /\ lon <=f (-122.23)%float))
  /\ validate_coordinates 37.84 (-122.32) "Berkeley" = true
  /\ validate_coordinates 37.91 (-122.23) "Berkeley" = true
  /\ validate_coordinates 37.87 (-122.27) "Berkeley" = true
  /\ validate_coordinates 40.0 (-122.27) "Berkeley" = false.
Proof.
  split.
  - intros lat lon. unfold validate_coordinates, BERKELEY_BOUNDS; cbn [lat_min lat_max lon_min lon_max].
    rewrite bool_decide_eq_true_2 by reflexivity.
    rewrite !andb_true_iff. tauto.
  - repeat split; vm_compute; reflexivity.
Qed.

(** C10. For every city name other than "Berkeley", [validate_coordinates]
    answers false whatever the coordinates are. *)
Theorem validate_coordinates_other_city (city : pystr) (lat lon : float) :
  city <> lit "Berkeley" -> validate_coordinates lat lon city = false.
Proof.
  intros Hcity. unfold validate_coordinates.
  by rewrite bool_decide_eq_false_2.
Qed.

Lemma validate_coordinates_other_city_witness :
  lit "berkeley" <> lit "Berkeley"
  /\ validate_coordinates 37.87 (-122.27) "berkeley" = false.
Proof.
  split.
  - intros H; vm_compute in H; discriminate H.
  - apply validate_coordinates_other_city.
    intros H; vm_compute in H; discriminate H.
Defined.

(** ** The lookup normaliser never raises *)

Lemma py_getitem_in {V} (d : gmap pystr V) (k : pystr) :
  py_in d k = true -> exists v, py_getitem d k = Ok v.
Proof.
  unfold py_in, py_getitem. intros H. apply bool_decide_eq_true_1 in H.
  destruct H as [v Hv]. rewrite Hv. by exists v.
Qed.

Lemma normalize_street_name_ok (name : pystr) :
  exists r, normalize_street_name name = Ok r.
Proof.
  unfold normalize_street_name.
  destruct (py_in word_to_num (strip (upper name))) eqn:Hin.
  - by apply py_getitem_in.
  - by eexists.
Qed.

(** The body of [normalize_address_for_lookup] once three tokens are there. *)
Lemma normalize_address_for_lookup_three (address t0 t1 t2 : pystr) (rest : list pystr) :
  split (strip address) = t0 :: t1 :: t2 :: rest ->
  normalize_address_for_lookup address =
    (normalized_name ← normalize_street_name t1;
     Ok (Some (fmt3 t0
                 (if bool_decide (is_Some (ordinal_match normalized_name))
                  then match ordinal_match normalized_name with
                       | Some (num, suffix) => num ++ lower suffix
                       | None => normalized_name
                       end
                  else normalized_name)
                 (py_get type_map (upper t2) (title t2))))).
Proof.
  intros Hparts. unfold normalize_address_for_lookup. rewrite Hparts.
  rewrite (py_index_nat _ 0 t0), (py_index_nat _ 1 t1), (py_index_nat _ 2 t2)
    by reflexivity.
  reflexivity.
Qed.

Lemma normalize_address_for_lookup_short (address : pystr) :
  (length (split (strip address)) < 3)%nat ->
  normalize_address_for_lookup address = Ok None.
Proof.
  intros Hlen. unfold normalize_address_for_lookup.
  apply Nat.ltb_lt in Hlen. by rewrite Hlen.
Qed.

Lemma normalize_address_for_lookup_ok (address : pystr) :
  exists r, normalize_address_for_lookup address = Ok r.
Proof.
  destruct (split (strip address)) as [|t0 [|t1 [|t2 rest]]] eqn:Hparts.
  1-3: exists None; apply normalize_address_for_lookup_short; rewrite Hparts; simpl; lia.
  rewrite (normalize_address_for_lookup_three _ _ _ _ _ Hparts).
  destruct (normalize_street_name_ok t1) as [n ->]. by eexists.
Qed.

(** ** Manual entries *)

(** C6. When the bounds check refuses the coordinates, [add_manual_geocode]
    returns False; every file is left as it was, and the only thing done is
    the printed warning: the lookup file is neither read nor written. *)
Theorem add_manual_geocode_rejected
    (address : pystr) (lat lon : float) (apn : option pystr)
    (lookup_file : string) (w : World) :
  validate_coordinates lat lon "Berkeley" = false ->
  exists w',
    add_manual_geocode address lat lon apn lookup_file w = (Ok false, w')
    /\ files w' = files w
    /\ log w' = log w ++ [Printed "WARNING: Coordinates outside Berkeley bounds"].
Proof.
  intros Hout. unfold add_manual_geocode. rewrite Hout. cbn.
  eexists; split; [reflexivity|]. split; reflexivity.
Qed.

Lemma add_manual_geocode_rejected_witness :
  validate_coordinates 40.0 (-122.27) "Berkeley" = false
  /\ exists w',
      add_manual_geocode "2700 Shattuck Ave" 40.0 (-122.27) None
        default_lookup_file
        (mkWorld {[ default_lookup_file := [mkRow "1914 5th St" 37.87 (-122.3) None] ]} [])
      = (Ok false, w')
      /\ files w' = {[ default_lookup_file := [mkRow "1914 5th St" 37.87 (-122.3) None] ]}
      /\ log w' = [Printed "WARNING: Coordinates outside Berkeley bounds"].
Proof.
  split; [vm_compute; reflexivity|].
  exact (add_manual_geocode_rejected "2700 Shattuck Ave" 40.0 (-122.27) None
           default_lookup_file
           (mkWorld {[ default_lookup_file := [mkRow "1914 5th St" 37.87 (-122.3) None] ]} [])
           eq_refl).
Defined.

(** An accepted entry does read the file and append one row to it. *)
Lemma add_manual_geocode_accepted
    (address : pystr) (lat lon : float) (apn : option pystr)
    (lookup_file : string) (w : World) (table : list LookupRecord) :
  validate_coordinates lat lon "Berkeley" = true ->
  files w !! lookup_file = Some table ->
  exists w' row,
    add_manual_geocode address lat lon apn lookup_file w = (Ok true, w')
    /\ files w' = <[lookup_file := table ++ [row]]> (files w)
    /\ latitude row = lat /\ longitude row = lon.
Proof.
  intros Hin Hfile. unfold add_manual_geocode. rewrite Hin. cbn.
  unfold io_bind, read_csv. cbn. rewrite Hfile.
  unfold io_lift.
  destruct (normalize_address_for_lookup_ok address) as [normalized ->].
  cbn. eexists _, _. split; [reflexivity|]. cbn. repeat split.
Qed.

(** ** Resolution against the lookup table *)

Lemma geocode_from_lookup_no_query (address : pystr) (lookup_file : string) (w : World) :
  normalize_address_for_lookup address = Ok None ->
  geocode_from_lookup address lookup_file w = (Ok None, w).
Proof.
  intros Hn. unfold geocode_from_lookup, io_bind, io_lift. by rewrite Hn.
Qed.

Lemma geocode_from_lookup_query
    (address query : pystr) (lookup_file : string) (w : World)
    (table : list LookupRecord) :
  normalize_address_for_lookup address = Ok (Some query) ->
  truthy query = true ->
  files w !! lookup_file = Some table ->
  geocode_from_lookup address lookup_file w
  = (Ok (first_match query table), emit (ReadCsv lookup_file) w).
Proof.
  intros Hn Hq Hfile.
  unfold geocode_from_lookup, io_bind, io_lift. rewrite Hn, Hq. cbn [negb].
  unfold read_csv. cbn [files emit]. rewrite Hfile.
  unfold first_match.
  destruct (filter _ table) as [|row matches]; [reflexivity|].
  cbn [length Nat.ltb Nat.leb]. by rewrite (py_index_nat _ 0 row).
Qed.

(** Resolution looks at nothing but the normalised query. *)
Lemma geocode_from_lookup_same_query (a b : pystr) (lookup_file : string) (w : World) :
  normalize_address_for_lookup a = normalize_address_for_lookup b ->
  geocode_from_lookup a lookup_file w = geocode_from_lookup b lookup_file w.
Proof.
  intros Hq. unfold geocode_from_lookup, io_bind, io_lift. by rewrite Hq.
Qed.

Lemma normalize_address_for_lookup_prefix (a b : pystr) :
  (3 <= length (split (strip a)))%nat ->
  take 3 (split (strip b)) = take 3 (split (strip a)) ->
  normalize_address_for_lookup b = normalize_address_for_lookup a
  /\ exists query, normalize_address_for_lookup a = Ok (Some query).
Proof.
  intros Hlen Htake.
  destruct (split (strip a)) as [|t0 [|t1 [|t2 rest]]] eqn:Ha; simpl in Hlen; try lia.
  destruct (split (strip b)) as [|u0 [|u1 [|u2 rest']]] eqn:Hb; try discriminate Htake.
  cbn in Htake. injection Htake as -> -> ->.
  rewrite (normalize_address_for_lookup_three _ _ _ _ _ Ha).
  rewrite (normalize_address_for_lookup_three _ _ _ _ _ Hb).
  split; [reflexivity|].
  destruct (normalize_street_name_ok t1) as [n ->]. by eexists.
Qed.

Lemma multi_word_lane_query :
  length (split (strip "123 Multi Word Lane")) = 4%nat
  /\ normalize_address_for_lookup "123 Multi Word Lane" = Ok (Some (lit "123 MULTI Word")).
Proof. split; vm_compute; reflexivity. Qed.

Lemma shattuck_query :
  normalize_address_for_lookup "2700 Shattuck Ave" = Ok (Some (lit "2700 SHATTUCK Av")).
Proof. vm_compute; reflexivity. Qed.

(** An input of four tokens is resolved, against the claim that every token
    count other than three yields no match without a query. *)
Lemma geocode_token_count_counterexample :
  ~ (forall (address : pystr) (lookup_file : string) (w : World),
        length (split (strip address)) <> 3%nat ->
        geocode_from_lookup address lookup_file w = (Ok None, w)).
Proof.
  intros Hclaim.
  set (table := [mkRow "123 MULTI Word" 37.87 (-122.27) None]).
  set (w := mkWorld {[ default_lookup_file := table ]} []).
  specialize (Hclaim "123 Multi Word Lane" default_lookup_file w).
  destruct multi_word_lane_query as [Hlen Hq].
  assert (Hfile : files w !! default_lookup_file = Some table)
    by (vm_compute; reflexivity).
  rewrite (geocode_from_lookup_query _ _ _ _ _ Hq eq_refl Hfile) in Hclaim.
  rewrite Hlen in Hclaim.
  specialize (Hclaim ltac:(discriminate)).
  vm_compute in Hclaim. discriminate Hclaim.
Qed.

(** C2 (amended). With fewer than three whitespace-delimited tokens the
    resolver returns no match and leaves the world untouched: the table is
    not read.  With three tokens or more it does build a query, from the
    first three tokens alone: two inputs that agree on these resolve alike. *)
Theorem geocode_token_count (address : pystr) (lookup_file : string) (w : World) :
  ((length (split (strip address)) < 3)%nat ->
   geocode_from_lookup address lookup_file w = (Ok None, w))
  /\ ((3 <= length (split (strip address)))%nat ->
      (exists query, normalize_address_for_lookup address = Ok (Some query))
      /\ forall other : pystr,
          take 3 (split (strip other)) = take 3 (split (strip address)) ->
          geocode_from_lookup other lookup_file w
          = geocode_from_lookup address lookup_file w).
Proof.
  split.
  - intros Hlen. apply geocode_from_lookup_no_query.
    by apply normalize_address_for_lookup_short.
  - intros Hlen. split.
    + by destruct (normalize_address_for_lookup_prefix address address Hlen eq_refl).
    + intros other Htake. apply geocode_from_lookup_same_query.
      by destruct (normalize_address_for_lookup_prefix address other Hlen Htake).
Qed.

Lemma geocode_token_count_witness :
  let w := mkWorld {[ default_lookup_file := [mkRow "123 MULTI Word" 37.87 (-122.27) None] ]} [] in
  geocode_from_lookup "2700 Shattuck" default_lookup_file w = (Ok None, w)
  /\ geocode_from_lookup "123 Multi Word Lane" default_lookup_file w
     = geocode_from_lookup "123 Multi Word" default_lookup_file w.
Proof.
  intros w. split.
  - apply (proj1 (geocode_token_count "2700 Shattuck" default_lookup_file w)).
    vm_compute. lia.
  - apply (proj2 (geocode_token_count "123 Multi Word" default_lookup_file w)).
    + vm_compute. lia.
    + vm_compute. reflexivity.
Defined.

(** The name "Shattuck" does not pass through unchanged, and a table whose
    row reads "2700 Shattuck Av" gives no match for "2700 Shattuck Ave". *)
Lemma geocode_shattuck_counterexample :
  normalize_street_name "Shattuck" <> Ok (lit "Shattuck")
  /\ ~ (forall (lookup_file : string) (w : World) (table : list LookupRecord)
               (row : LookupRecord),
           files w !! lookup_file = Some table ->
           row ∈ table ->
           original_address row = lit "2700 Shattuck Av" ->
           exists r w',
             geocode_from_lookup "2700 Shattuck Ave" lookup_file w = (Ok (Some r), w')).
Proof.
  split.
  - intros H. vm_compute in H. discriminate H.
  - intros Hclaim.
    set (row := mkRow "2700 Shattuck Av" 37.87 (-122.27) None).
    set (w := mkWorld {[ default_lookup_file := [row] ]} []).
    assert (Hfile : files w !! default_lookup_file = Some [row])
      by (vm_compute; reflexivity).
    destruct (Hclaim default_lookup_file w [row] row Hfile
                ltac:(apply list_elem_of_here) eq_refl) as (r & w' & Hr).
    rewrite (geocode_from_lookup_query _ _ _ _ _ shattuck_query eq_refl Hfile) in Hr.
    vm_compute in Hr. discriminate Hr.
Qed.

(** C1 (amended). The name-conversion step uppercases and trims a name that
    is not one of the twelve ordinal words, so "2700 Shattuck Ave" is looked
    up as "2700 SHATTUCK Av": against a table with a row of that address the
    resolver reads the table and returns the first such row. *)
Theorem geocode_shattuck_uppercase :
  (forall name : pystr,
      py_in word_to_num (strip (upper name)) = false ->
      normalize_street_name name = Ok (strip (upper name)))
  /\ (forall (lookup_file : string) (w : World) (table : list LookupRecord)
             (row : LookupRecord),
         files w !! lookup_file = Some table ->
         row ∈ table ->
         original_address row = lit "2700 SHATTUCK Av" ->
         exists row0 : LookupRecord,
           head (filter (fun r => original_address r = lit "2700 SHATTUCK Av") table)
           = Some row0
           /\ geocode_from_lookup "2700 Shattuck Ave" lookup_file w
              = (Ok (Some (mkResult (latitude row0) (longitude row0) (APN row0)
                             "2700 SHATTUCK Av" "2700 SHATTUCK Av")),
                 emit (ReadCsv lookup_file) w)).
Proof.
  split.
  - intros name Hin. unfold normalize_street_name. by rewrite Hin.
  - intros lookup_file w table row Hfile Hrow Haddr.
    rewrite (geocode_from_lookup_query _ _ _ _ _ shattuck_query eq_refl Hfile).
    unfold first_match.
    assert (Hin : row ∈ filter (fun r => original_address r = lit "2700 SHATTUCK Av") table)
      by (apply list_elem_of_filter; by split).
    destruct (filter _ table) as [|row0 matches] eqn:Hf.
    + by apply not_elem_of_nil in Hin.
    + exists row0. split; [reflexivity|].
      assert (Hrow0 : row0 ∈ filter (fun r => original_address r = lit "2700 SHATTUCK Av") table)
        by (rewrite Hf; apply list_elem_of_here).
      apply list_elem_of_filter in Hrow0 as [-> _]. reflexivity.
Qed.

Lemma geocode_shattuck_uppercase_witness :
  let table := [mkRow "1914 5th St" 37.86 (-122.3) None;
                mkRow "2700 SHATTUCK Av" 37.87 (-122.27) (Some (lit "055 1825 015 00"))] in
  let w := mkWorld {[ default_lookup_file := table ]} [] in
  normalize_street_name "Shattuck" = Ok (lit "SHATTUCK")
  /\ exists row0 : LookupRecord,
      head (filter (fun r => original_address r = lit "2700 SHATTUCK Av") table) = Some row0
      /\ geocode_from_lookup "2700 Shattuck Ave" default_lookup_file w
         = (Ok (Some (mkResult (latitude row0) (longitude row0) (APN row0)
                        "2700 SHATTUCK Av" "2700 SHATTUCK Av")),
            emit (ReadCsv default_lookup_file) w).
Proof.
  intros table w. split.
  - apply (proj1 geocode_shattuck_uppercase "Shattuck"). vm_compute. reflexivity.
  - apply (proj2 geocode_shattuck_uppercase default_lookup_file w table
             (mkRow "2700 SHATTUCK Av" 37.87 (-122.27) (Some (lit "055 1825 015 00")))).
    + vm_compute. reflexivity.
    + apply list_elem_of_further, list_elem_of_here.
    + reflexivity.
Defined.

(** ** Spelling variants *)

(** C5. The variants generated for ("1914", "FIFTH", "ST") include both
    "1914 5TH ST" and "1914 Fifth St". *)
Theorem generate_address_variations_fifth :
  exists variations : list pystr,
    generate_address_variations "1914" "FIFTH" "ST" = Ok variations
    /\ lit "1914 5TH ST" ∈ variations
    /\ lit "1914 Fifth St" ∈ variations.
Proof.
  eexists. split; [vm_compute; reflexivity|].
  split; apply (bool_decide_unpack _); vm_compute; exact I.
Qed.

(** The variants are the six name forms times the nine type forms, each
    listed once. *)
Lemma generate_address_variations_fifth_count :
  exists variations : list pystr,
    generate_address_variations "1914" "FIFTH" "ST" = Ok variations
    /\ length variations = 54%nat
    /\ NoDup variations.
Proof.
  eexists. split; [vm_compute; reflexivity|].
  split; [reflexivity|]. apply (bool_decide_unpack _); vm_compute; exact I.
Qed.

(** ** The canonical key on particular inputs *)

(** C7. [normalize_address] keeps the ordinal as it is written: "FIFTH ST"
    and "5TH ST" normalise to themselves, hence to two different keys. *)
Theorem normalize_address_keeps_ordinal_form :
  normalize_address "FIFTH ST" = Ok (lit "FIFTH ST")
  /\ normalize_address "5TH ST" = Ok (lit "5TH ST")
  /\ normalize_address "FIFTH ST" <> normalize_address "5TH ST".
Proof.
  split; [vm_compute; reflexivity|].
  split; [vm_compute; reflexivity|].
  intros H. vm_compute in H. discriminate H.
Qed.

(** C4 (the code at the failing input). With a street number and a street
    type but no street name, [normalize_address] leaves the two separating
    spaces next to each other, where [standardize_address] joins the
    components that are present with one space. *)
Theorem normalize_address_double_space :
  normalize_address "123 St" = Ok (lit "123  ST")
  /\ standardize_address "123 St" true = Ok (lit "123 ST").
Proof. split; vm_compute; reflexivity. Qed.
